(** * PathGuard: the pre-edit hook [security-check.py]

    A verification development for
    [docs/staging/workflow-v2/hooks/security-check.py].  The hook reads one
    JSON document from standard input, extracts [tool_input.file_path],
    and decides with its exit status whether the edit may proceed:
    status 0 allows it, status 2 blocks it.

    The script is embedded as it is written: Python objects as an
    inductive type, [print], [sys.exit] and [try ... except Exception] in
    a small monad that threads standard output and a raised exception, the
    dictionaries as finite maps and the set of protected names as a finite
    set.  [json.load] belongs to the standard library, not to the script;
    the script is verified for every decoder (a section variable), and a
    decoder for UTF-8 encoded JSON text is given to run the hook on
    concrete documents. *)

From Stdlib Require Import Ascii String ZArith NArith List Lia.
From Stdlib.Strings Require Byte.
From stdpp Require Import gmap strings list.

Local Open Scope Z_scope.

(** ** Python strings *)

(** A Python [str] is a sequence of Unicode code points. *)
Abbreviation str := (list N).

(** The [str] written as a literal in the script. *)
Definition lit (s : string) : str :=
  N_of_ascii <$> list_ascii_of_string s.

Module Str.

(** [s.startswith(p)] *)
Fixpoint startswith (p s : str) : bool :=
  match p, s with
  | [], _ => true
  | _ :: _, [] => false
  | a :: p', b :: s' => (a =? b)%N && startswith p' s'
  end.

(** [p in s] for two strings: [p] occurs in [s] as a substring. *)
Fixpoint contains (p s : str) : bool :=
  startswith p s ||
  match s with
  | [] => false
  | _ :: s' => contains p s'
  end.

(** The first segment of [s] and the segments after it, cutting at every
    occurrence of the character [sep]. *)
Fixpoint segments (sep : N) (s : str) : str * list str :=
  match s with
  | [] => ([], [])
  | c :: s' =>
      let (w, ws) := segments sep s' in
      if (c =? sep)%N then ([], w :: ws) else (c :: w, ws)
  end.

(** [s.split(sep)] for a separator of one character: never empty. *)
Definition split (s : str) (sep : N) : list str :=
  let (w, ws) := segments sep s in w :: ws.

End Str.

(** ** Python objects *)

(** A [float] read from JSON text: one of the constants [NaN], [Infinity],
    [-Infinity], or the decimal [m * 10^e] of a number literal.  The hook
    only tests a float for truth, and binary64 rounding is kept for that
    test alone (see [float_truth]). *)
Inductive pyfloat :=
| FNaN
| FInf (negative : bool)
| FDec (m e : Z).

(** The objects [json.load] builds. *)
#[warnings="-register-all"] Inductive pyobj :=
| PNone
| PBool (b : bool)
| PInt (z : Z)
| PFloat (x : pyfloat)
| PStr (s : str)
| PList (l : list pyobj)
| PDict (d : gmap str pyobj).

(** [bool(x)] of a float: false exactly when the value is zero.  A decimal
    rounds to (plus or minus) zero in binary64 when its magnitude is at most
    [2^-1075], half of the least subnormal number. *)
Definition float_truth (x : pyfloat) : bool :=
  match x with
  | FNaN | FInf _ => true
  | FDec m e =>
      if 0 <=? e then negb (m =? 0)
      else negb (Z.abs m * 2 ^ 1075 <=? 10 ^ (- e))
  end.

(** [bool(x)]: the truth value the conditional expression tests. *)
Definition truth (x : pyobj) : bool :=
  match x with
  | PNone => false
  | PBool b => b
  | PInt z => negb (z =? 0)
  | PFloat f => float_truth f
  | PStr s => match s with [] => false | _ :: _ => true end
  | PList l => match l with [] => false | _ :: _ => true end
  | PDict d => negb (size d =? 0)%nat
  end.

(** ** Exceptions, standard output and the monad of a script *)

(** The exceptions the hook can meet.  All of them but [SystemExit] derive
    from [Exception]. *)
Inductive pyexc :=
| SystemExit (code : Z)
| JSONDecodeError
| UnicodeDecodeError
| RecursionError
| ValueError
| AttributeError
| TypeError
| IndexError.

(** [isinstance(e, Exception)]: [SystemExit] derives from [BaseException]
    directly. *)
Definition is_Exception (e : pyexc) : bool :=
  match e with
  | SystemExit _ => false
  | _ => true
  end.

(** The ways [json.load] fails on a stream: all are raised as subclasses of
    [Exception]. *)
Inductive load_error :=
| LoadJSONDecodeError
| LoadUnicodeDecodeError
| LoadRecursionError
| LoadValueError.

(** What [json.load] makes of a stream. *)
Inductive loaded (A : Type) :=
| Loaded (a : A)
| LoadFails (e : load_error).
Arguments Loaded {A} a.
Arguments LoadFails {A} e.

#[global] Instance loaded_ret : MRet loaded := λ A a, Loaded a.

#[global] Instance loaded_bind : MBind loaded := λ A B f m,
  match m with
  | Loaded a => f a
  | LoadFails e => LoadFails e
  end.

Definition load_exc (e : load_error) : pyexc :=
  match e with
  | LoadJSONDecodeError => JSONDecodeError
  | LoadUnicodeDecodeError => UnicodeDecodeError
  | LoadRecursionError => RecursionError
  | LoadValueError => ValueError
  end.

(** A statement either completes with a value or raises. *)
Inductive res (A : Type) :=
| Val (a : A)
| Raise (e : pyexc).
Arguments Val {A} a.
Arguments Raise {A} e.

(** A computation of the script: from the text written to standard output
    so far to a result and the output after it. *)
Definition M (A : Type) : Type := str → res A * str.

#[global] Instance M_ret : MRet M := λ A a out, (Val a, out).

#[global] Instance M_bind : MBind M := λ A B f m out,
  match m out with
  | (Val a, out') => f a out'
  | (Raise e, out') => (Raise e, out')
  end.

Definition raise {A} (e : pyexc) : M A := λ out, (Raise e, out).

(** A line of output: the text and a newline. *)
Definition line (s : str) : str := s ++ [10%N].

(** [print(s)] writes the line of [s].  Standard output is taken to accept
    what is written to it. *)
Definition print (s : str) : M unit := λ out, (Val tt, out ++ line s).

(** [sys.exit(code)] *)
Definition sys_exit {A} (code : Z) : M A := raise (SystemExit code).

(** [try: body except Exception: handler] *)
Definition try_except_Exception {A} (body handler : M A) : M A := λ out,
  match body out with
  | (Val a, out') => (Val a, out')
  | (Raise e, out') =>
      if is_Exception e then handler out' else (Raise e, out')
  end.

(** [for x in l: body(x)] *)
Fixpoint for_each {A} (l : list A) (body : A → M unit) : M unit :=
  match l with
  | [] => mret tt
  | x :: l' => body x;; for_each l' body
  end.

(** ** The operations the hook applies to objects *)

(** [obj.get(key, default)]: only a [dict] has the method. *)
Definition py_get (obj : pyobj) (key : str) (dflt : pyobj) : M pyobj :=
  match obj with
  | PDict d => mret (default dflt (d !! key))
  | _ => raise AttributeError
  end.

(** [obj.split(sep)]: only a [str] has the method. *)
Definition py_split (obj : pyobj) (sep : N) : M (list str) :=
  match obj with
  | PStr s => mret (Str.split s sep)
  | _ => raise AttributeError
  end.

(** [l[i]] with Python's negative indices. *)
Definition py_index {A} (l : list A) (i : Z) : M A :=
  let n := Z.of_nat (length l) in
  let j := if i <? 0 then i + n else i in
  if (j <? 0) || (n <=? j) then raise IndexError
  else match l !! Z.to_nat j with
       | Some x => mret x
       | None => raise IndexError
       end.

(** [x == pattern] for a string [pattern]: only an equal [str] is equal. *)
Definition py_eq_str (pattern : str) (x : pyobj) : bool :=
  match x with
  | PStr s => bool_decide (s = pattern)
  | _ => false
  end.

(** [pattern in obj] for a string [pattern]: substring test in a [str],
    membership in a [list], key membership in a [dict]; the other objects
    are not containers. *)
Definition py_in (pattern : str) (obj : pyobj) : M bool :=
  match obj with
  | PStr s => mret (Str.contains pattern s)
  | PList l => mret (existsb (py_eq_str pattern) l)
  | PDict d => mret (bool_decide (is_Some (d !! pattern)))
  | _ => raise TypeError
  end.

(** ** The hook *)

(** [PROTECTED_FILES = {'.env', '.env.local', '.env.production',
    'credentials.json'}] *)
Definition PROTECTED_FILES : gset str :=
  {[ lit ".env"; lit ".env.local"; lit ".env.production";
     lit "credentials.json" ]}.

(** [PROTECTED_PATTERNS = ['id_rsa', '.pem', '.key']] *)
Definition PROTECTED_PATTERNS : list str :=
  [ lit "id_rsa"; lit ".pem"; lit ".key" ].

(** The two messages, as the f-strings build them. *)
Definition protected_file_message (filename : str) : str :=
  lit "BLOCKED: Cannot edit protected file: " ++ filename.

Definition pattern_message (pattern : str) : str :=
  lit "BLOCKED: Cannot edit file matching pattern: " ++ pattern.

(** The character ['/']. *)
Definition slash : N := 47%N.

(** Line 13:
    [file_path = input_data.get('tool_input', {}).get('file_path', '')] *)
Definition get_file_path (input_data : pyobj) : M pyobj :=
  tool_input ← py_get input_data (lit "tool_input") (PDict ∅);
  py_get tool_input (lit "file_path") (PStr []).

(** Line 16: [filename = file_path.split('/')[-1] if file_path else ''] *)
Definition get_filename (file_path : pyobj) : M str :=
  if truth file_path
  then parts ← py_split file_path slash; py_index parts (-1)
  else mret [].

(** Lines 15 to 27: the two checks on [file_path], then [sys.exit(0)]. *)
Definition check (file_path : pyobj) : M unit :=
  filename ← get_filename file_path;
  (if bool_decide (filename ∈ PROTECTED_FILES)
   then print (protected_file_message filename);; sys_exit 2
   else mret tt);;
  for_each PROTECTED_PATTERNS (λ pattern,
    found ← py_in pattern file_path;
    if (found : bool)
    then print (pattern_message pattern);; sys_exit 2
    else mret tt);;
  sys_exit 0.

(** What ends a process: the status it exits with and the text it wrote to
    standard output. *)
Record outcome := Outcome { exit_code : Z; printed : str }.

(** The status of the interpreter for a finished script: [SystemExit(code)]
    exits with [code], a script that runs to its end with 0, and any other
    exception that escapes is reported on standard error with status 1. *)
Definition exit_status (r : res unit) : Z :=
  match r with
  | Val _ => 0
  | Raise (SystemExit code) => code
  | Raise _ => 1
  end.

Section Hook.

(** [json.load] on the bytes of standard input: the object it builds, or
    the error it raises. *)
Variable json_load : list Byte.byte → loaded pyobj.

(** [json.load(sys.stdin)] *)
Definition load (stdin : list Byte.byte) : M pyobj :=
  match json_load stdin with
  | Loaded obj => mret obj
  | LoadFails e => raise (load_exc e)
  end.

(** [main()] *)
Definition main (stdin : list Byte.byte) : M unit :=
  try_except_Exception
    (input_data ← load stdin;
     file_path ← get_file_path input_data;
     check file_path)
    (sys_exit 0).

(** The script run as a process: [main()] with nothing written yet. *)
Definition run (stdin : list Byte.byte) : outcome :=
  let (r, out) := main stdin [] in
  Outcome (exit_status r) out.

End Hook.

(** ** The vocabulary of the statements *)

(** [m] completes with the value [a] and prints nothing. *)
Definition returns {A} (m : M A) (a : A) : Prop :=
  ∀ out, m out = (Val a, out).

(** The script ends with [sys.exit(code)], having written [out]. *)
Definition exits (code : Z) (out : str) : res unit * str :=
  (Raise (SystemExit code), out).

(** The final segment of a path after splitting it on ['/']. *)
Definition final_segment (path : str) : str :=
  default [] (last (Str.split path slash)).

(** [p] occurs in [s] as a substring. *)
Definition substring (p s : str) : Prop :=
  ∃ before after, s = before ++ p ++ after.

(** A JSON object in which the key ['tool_input'] is absent, or in which
    the object under ['tool_input'] has no key ['file_path']. *)
Inductive key_absent : pyobj → Prop :=
| tool_input_absent (d : gmap str pyobj) :
    d !! lit "tool_input" = None →
    key_absent (PDict d)
| file_path_absent (d t : gmap str pyobj) :
    d !! lit "tool_input" = Some (PDict t) →
    t !! lit "file_path" = None →
    key_absent (PDict d).

(** An ASCII lower-case letter. *)
Definition lowercase (c : N) : bool := ((97 <=? c) && (c <=? 122))%N.

(** ** A decoder for the text on standard input

    The text of [sys.stdin] is the UTF-8 decoding of its bytes; [json.load]
    reads it whole and scans one JSON value, as the scanner of the standard
    library does: white space around the value, the constants [NaN],
    [Infinity] and [-Infinity] besides the grammar of JSON, control
    characters refused inside strings, a pair of surrogate escapes joined
    to one code point, the last of several equal keys kept. *)

Module Utf8.

Local Open Scope N_scope.

(** A continuation byte, [10xxxxxx]. *)
Definition continuation (b : N) : bool := (0x80 <=? b) && (b <=? 0xBF).

(** The payload bits of a continuation byte. *)
Definition low6 (b : N) : N := N.land b 0x3F.

(** Strict decoding: [None] is a [UnicodeDecodeError].  Overlong forms,
    surrogates and code points above [0x10FFFF] are refused. *)
Fixpoint decode (bs : list N) : option str :=
  match bs with
  | [] => Some []
  | b0 :: r0 =>
      if b0 <? 0x80 then cons b0 <$> decode r0
      else if b0 <? 0xC0 then None
      else if b0 <? 0xE0 then
        match r0 with
        | b1 :: r1 =>
            let c := N.shiftl (N.land b0 0x1F) 6 + low6 b1 in
            if continuation b1 && (0x80 <=? c)
            then cons c <$> decode r1 else None
        | _ => None
        end
      else if b0 <? 0xF0 then
        match r0 with
        | b1 :: b2 :: r2 =>
            let c := N.shiftl (N.land b0 0x0F) 12
                     + N.shiftl (low6 b1) 6 + low6 b2 in
            if continuation b1 && continuation b2 && (0x800 <=? c)
               && negb ((0xD800 <=? c) && (c <=? 0xDFFF))
            then cons c <$> decode r2 else None
        | _ => None
        end
      else if b0 <? 0xF8 then
        match r0 with
        | b1 :: b2 :: b3 :: r3 =>
            let c := N.shiftl (N.land b0 0x07) 18
                     + N.shiftl (low6 b1) 12
                     + N.shiftl (low6 b2) 6 + low6 b3 in
            if continuation b1 && continuation b2 && continuation b3
               && (0x10000 <=? c) && (c <=? 0x10FFFF)
            then cons c <$> decode r3 else None
        | _ => None
        end
      else None
  end.

End Utf8.

Module Json.

(** Every failure of the scanner is a [JSONDecodeError]. *)
Definition malformed {A} : loaded A := LoadFails LoadJSONDecodeError.

(** [c] is the character [a]. *)
Definition eqc (a : ascii) (c : N) : bool := (c =? N_of_ascii a)%N.

(** The double quote and the backslash. *)
Definition quote : N := 34%N.
Definition backslash : N := 92%N.

(** [WHITESPACE]: space, tab, line feed, carriage return. *)
Definition whitespace (c : N) : bool :=
  (c =? 32)%N || (c =? 9)%N || (c =? 10)%N || (c =? 13)%N.

Fixpoint skip_ws (s : str) : str :=
  match s with
  | c :: r => if whitespace c then skip_ws r else s
  | [] => []
  end.

(** What follows the word [w] when the text starts with it. *)
Definition after (w : string) (s : str) : option str :=
  if Str.startswith (lit w) s then Some (drop (length (lit w)) s) else None.

Definition digit (c : N) : option Z :=
  if ((48 <=? c) && (c <=? 57))%N then Some (Z.of_N c - 48) else None.

Definition hexdigit (c : N) : option Z :=
  if ((48 <=? c) && (c <=? 57))%N then Some (Z.of_N c - 48)
  else if ((65 <=? c) && (c <=? 70))%N then Some (Z.of_N c - 55)
  else if ((97 <=? c) && (c <=? 102))%N then Some (Z.of_N c - 87)
  else None.

(** The longest run of decimal digits the text starts with, and the rest. *)
Fixpoint digits (s : str) : list Z * str :=
  match s with
  | c :: r =>
      match digit c with
      | Some d => let (ds, r') := digits r in (d :: ds, r')
      | None => ([], s)
      end
  | [] => ([], [])
  end.

(** The number a list of decimal digits writes. *)
Definition decimal (ds : list Z) : Z :=
  foldl (λ acc d, 10 * acc + d) 0 ds.

(** [sys.int_info.default_max_str_digits]: a longer integer literal is a
    [ValueError]. *)
Definition max_str_digits : nat := 4300.

(** The parts of a number literal: an optional minus sign, then a zero or
    a run of digits that does not start with a zero, then optionally a
    point and digits, then optionally [e] or [E], a sign and digits. *)

(** The sign: whether a minus was read, and the text after it. *)
Definition sign_part (s : str) : bool * str :=
  match s with
  | c :: r => if eqc "-" c then (true, r) else (false, s)
  | [] => (false, s)
  end.

(** The integer digits; [None] when there is none. *)
Definition integer_part (s : str) : option (list Z * str) :=
  match s with
  | c :: r =>
      if eqc "0" c then Some ([0], r)
      else match digit c with
           | Some _ => Some (digits s)
           | None => None
           end
  | [] => None
  end.

(** The digits of the fraction: a point is read only when a digit follows;
    no digits when there is no fraction. *)
Definition fraction_part (s : str) : list Z * str :=
  match s with
  | c :: ((d :: _) as r) =>
      if eqc "." c && bool_decide (is_Some (digit d))
      then digits r else ([], s)
  | _ => ([], s)
  end.

(** The exponent: [e] or [E] and a sign are read only when digits
    follow. *)
Definition exponent_part (s : str) : option Z * str :=
  match s with
  | c :: r =>
      if eqc "e" c || eqc "E" c then
        let (exp_sign, r1) :=
          match r with
          | c1 :: r' =>
              if eqc "-" c1 then (-1, r')
              else if eqc "+" c1 then (1, r')
              else (1, r)
          | [] => (1, r)
          end in
        match digits r1 with
        | ([], _) => (None, s)
        | (ds, r2) => (Some (exp_sign * decimal ds), r2)
        end
      else (None, s)
  | [] => (None, s)
  end.

(** A number literal at the start of the text: an [int] without fraction
    and exponent, a [float] with one of them.  [None] when the text does
    not start with a number. *)
Definition number (s : str) : option (loaded pyobj * str) :=
  let (negative, s1) := sign_part s in
  let sign := if negative then -1 else 1 in
  match integer_part s1 with
  | None => None
  | Some (int_ds, s2) =>
      let (frac_ds, s3) := fraction_part s2 in
      let (exp, s4) := exponent_part s3 in
      match frac_ds, exp with
      | [], None =>
          if bool_decide (length int_ds ≤ max_str_digits)%nat
          then Some (Loaded (PInt (sign * decimal int_ds)), s4)
          else Some (LoadFails LoadValueError, s4)
      | _, _ =>
          Some (Loaded (PFloat (FDec (sign * decimal (int_ds ++ frac_ds))
                                     (default 0 exp
                                      - Z.of_nat (length frac_ds)))), s4)
      end
  end.

(** The character a one-letter escape stands for. *)
Definition escape (c : N) : option N :=
  if (c =? quote)%N then Some 34%N
  else if (c =? backslash)%N then Some 92%N
  else if eqc "/" c then Some 47%N
  else if eqc "b" c then Some 8%N
  else if eqc "f" c then Some 12%N
  else if eqc "n" c then Some 10%N
  else if eqc "r" c then Some 13%N
  else if eqc "t" c then Some 9%N
  else None.

Definition hex4 (a b c d : N) : option N :=
  a ← hexdigit a; b ← hexdigit b; c ← hexdigit c; d ← hexdigit d;
  Some (Z.to_N (((a * 16 + b) * 16 + c) * 16 + d)).

Definition high_surrogate (c : N) : bool := ((0xD800 <=? c) && (c <=? 0xDBFF))%N.
Definition low_surrogate (c : N) : bool := ((0xDC00 <=? c) && (c <=? 0xDFFF))%N.
Definition join_surrogates (hi lo : N) : N :=
  (0x10000 + N.shiftl (hi - 0xD800) 10 + (lo - 0xDC00))%N.

Definition push (c : N) (r : loaded (str * str)) : loaded (str * str) :=
  '(k, rest) ← r; Loaded (c :: k, rest).

(** The string whose opening quote has been read: its characters and the
    text after its closing quote. *)
Fixpoint scanstring (s : str) : loaded (str * str) :=
  match s with
  | [] => malformed
  | c :: r =>
      if (c =? quote)%N then Loaded ([], r)
      else if (c =? backslash)%N then
        match r with
        | [] => malformed
        | e :: r1 =>
            if eqc "u" e then
              match r1 with
              | h1 :: h2 :: h3 :: h4 :: r2 =>
                  match hex4 h1 h2 h3 h4 with
                  | None => malformed
                  | Some cp =>
                      match r2 with
                      | b :: u :: k1 :: k2 :: k3 :: k4 :: r3 =>
                          if high_surrogate cp && (b =? backslash)%N && eqc "u" u then
                            match hex4 k1 k2 k3 k4 with
                            | None => malformed
                            | Some cp2 =>
                                if low_surrogate cp2
                                then push (join_surrogates cp cp2)
                                          (scanstring r3)
                                else push cp (scanstring r2)
                            end
                          else push cp (scanstring r2)
                      | _ => push cp (scanstring r2)
                      end
                  end
              | _ => malformed
              end
            else
              match escape e with
              | Some x => push x (scanstring r1)
              | None => malformed
              end
        end
      else if (c <? 32)%N then malformed
      else push c (scanstring r)
  end.

(** One JSON value at the start of the text, and the text after it.
    [depth] is what is left of the interpreter's recursion limit: each
    object and each array entered uses one level.  [fuel] bounds the
    calls; of two calls in a row one reads a character, and from twice
    the length of the text and two on, more fuel changes nothing
    ([value_fuel]). *)
Fixpoint value (fuel depth : nat) (s : str) : loaded (pyobj * str) :=
  match fuel with
  | O => LoadFails LoadRecursionError
  | S fuel =>
      match s with
      | [] => malformed
      | c :: r =>
          if (c =? quote)%N then
            '(k, r') ← scanstring r; Loaded (PStr k, r')
          else if eqc "{" c then
            match depth with
            | O => LoadFails LoadRecursionError
            | S depth =>
                match skip_ws r with
                | c' :: r' =>
                    if eqc "}" c' then Loaded (PDict ∅, r')
                    else members fuel depth ∅ (c' :: r')
                | [] => malformed
                end
            end
          else if eqc "[" c then
            match depth with
            | O => LoadFails LoadRecursionError
            | S depth =>
                match skip_ws r with
                | c' :: r' =>
                    if eqc "]" c' then Loaded (PList [], r')
                    else elements fuel depth [] (c' :: r')
                | [] => malformed
                end
            end
          else if eqc "n" c then
            match after "null" s with
            | Some r' => Loaded (PNone, r')
            | None => malformed
            end
          else if eqc "t" c then
            match after "true" s with
            | Some r' => Loaded (PBool true, r')
            | None => malformed
            end
          else if eqc "f" c then
            match after "false" s with
            | Some r' => Loaded (PBool false, r')
            | None => malformed
            end
          else if eqc "N" c then
            match after "NaN" s with
            | Some r' => Loaded (PFloat FNaN, r')
            | None => malformed
            end
          else if eqc "I" c then
            match after "Infinity" s with
            | Some r' => Loaded (PFloat (FInf false), r')
            | None => malformed
            end
          else
            match after "-Infinity" s with
            | Some r' => Loaded (PFloat (FInf true), r')
            | None =>
                match number s with
                | Some (Loaded v, r') => Loaded (v, r')
                | Some (LoadFails e, _) => LoadFails e
                | None => malformed
                end
            end
      end
  end

(** The members of an object from the opening quote of a key on; [d]
    holds the members read so far, and a key read again replaces its
    value. *)
with members (fuel depth : nat) (d : gmap str pyobj) (s : str)
  : loaded (pyobj * str) :=
  match fuel with
  | O => LoadFails LoadRecursionError
  | S fuel =>
      match s with
      | c :: r =>
          if (c =? quote)%N then
            '(key, r1) ← scanstring r;
            match skip_ws r1 with
            | c2 :: r2 =>
                if eqc ":" c2 then
                  '(v, r3) ← value fuel depth (skip_ws r2);
                  let d' := <[key := v]> d in
                  match skip_ws r3 with
                  | c4 :: r4 =>
                      if eqc "}" c4 then Loaded (PDict d', r4)
                      else if eqc "," c4
                      then members fuel depth d' (skip_ws r4)
                      else malformed
                  | [] => malformed
                  end
                else malformed
            | [] => malformed
            end
          else malformed
      | [] => malformed
      end
  end

(** The elements of an array from the start of an element on; [acc]
    holds the elements read so far, the last one first. *)
with elements (fuel depth : nat) (acc : list pyobj) (s : str)
  : loaded (pyobj * str) :=
  match fuel with
  | O => LoadFails LoadRecursionError
  | S fuel =>
      '(v, r1) ← value fuel depth s;
      match skip_ws r1 with
      | c2 :: r2 =>
          if eqc "]" c2 then Loaded (PList (reverse (v :: acc)), r2)
          else if eqc "," c2
          then elements fuel depth (v :: acc) (skip_ws r2)
          else malformed
      | [] => malformed
      end
  end.

(** [sys.getrecursionlimit()] of a fresh interpreter. *)
Definition recursion_limit : nat := 1000.

(** [json.loads(s)]: one value, white space around it and nothing else. *)
Definition loads (s : str) : loaded pyobj :=
  '(v, r) ← value (2 * length s + 2) recursion_limit (skip_ws s);
  match skip_ws r with
  | [] => Loaded v
  | _ :: _ => malformed
  end.

(** [json.load(sys.stdin)] on the bytes of standard input. *)
Definition load (stdin : list Byte.byte) : loaded pyobj :=
  match Utf8.decode (Byte.to_N <$> stdin) with
  | Some s => loads s
  | None => LoadFails LoadUnicodeDecodeError
  end.

(** The bytes of a document written with an apostrophe for each double
    quote. *)
Definition document (text : string) : list Byte.byte :=
  (λ b, if Byte.eqb b Byte.x27 then Byte.x22 else b)
    <$> list_byte_of_string text.

End Json.

(** The hook with this decoder. *)
Definition hook (stdin : list Byte.byte) : outcome := run Json.load stdin.

(** * Properties *)

(** ** Runs on concrete documents *)

Example split_keeps_empty_segments :
  Str.split (lit "a//b/") slash = [lit "a"; []; lit "b"; []].
Proof. reflexivity. Qed.

Example last_of_equal_keys_is_kept :
  Json.load (Json.document "{'k': 1, 'k': [true, null, 'a\u00e9'] }") =
  Loaded (PDict {[ lit "k" :=
                     PList [PBool true; PNone; PStr [97%N; 233%N]] ]}).
Proof. vm_compute. reflexivity. Qed.

Example invalid_utf8_is_refused :
  Json.load [Byte.x22; Byte.xff; Byte.x22] = LoadFails LoadUnicodeDecodeError.
Proof. reflexivity. Qed.

Example run_env :
  hook (Json.document "{'tool_input':{'file_path':'/home/user/.env'}}") =
  Outcome 2 (line (lit "BLOCKED: Cannot edit protected file: .env")).
Proof. vm_compute. reflexivity. Qed.

Example run_id_rsa :
  hook (Json.document "{'tool_input':{'file_path':'/keys/id_rsa'}}") =
  Outcome 2 (line (lit "BLOCKED: Cannot edit file matching pattern: id_rsa")).
Proof. vm_compute. reflexivity. Qed.

Example run_main_py :
  hook (Json.document "{'tool_input':{'file_path':'/src/main.py'}}") =
  Outcome 0 [].
Proof. vm_compute. reflexivity. Qed.

(** [.key] occurs in [api.keys.md], and not in [monkey.txt], which has no
    point before [key]. *)
Example run_api_keys :
  hook (Json.document "{'tool_input':{'file_path':'/docs/api.keys.md'}}") =
  Outcome 2 (line (lit "BLOCKED: Cannot edit file matching pattern: .key")).
Proof. vm_compute. reflexivity. Qed.

Example run_monkey :
  hook (Json.document "{'tool_input':{'file_path':'/notes/monkey.txt'}}") =
  Outcome 0 [].
Proof. vm_compute. reflexivity. Qed.

(** A path that is a list has no [split]: the [AttributeError] is caught. *)
Example run_path_is_a_list :
  hook (Json.document "{'tool_input':{'file_path':['id_rsa']}}") =
  Outcome 0 [].
Proof. vm_compute. reflexivity. Qed.

(** A document that is not an object has no [get]. *)
Example run_not_an_object :
  hook (Json.document "['/home/user/.env']") = Outcome 0 [].
Proof. vm_compute. reflexivity. Qed.

(** ** Strings *)

Lemma startswith_spec (p s : str) :
  Str.startswith p s = true ↔ ∃ rest, s = p ++ rest.
Proof.
  revert s. induction p as [|a p IH]; intros s; simpl.
  - split; eauto.
  - destruct s as [|b s].
    + split; [done | intros [rest H]; discriminate].
    + rewrite andb_true_iff, N.eqb_eq, IH. split.
      * intros [-> [rest ->]]. eauto.
      * intros [rest H]. injection H as -> ->. eauto.
Qed.

Lemma contains_spec (p s : str) :
  Str.contains p s = true ↔ substring p s.
Proof.
  unfold substring. induction s as [|c s IH]; simpl.
  - rewrite orb_false_r, startswith_spec. split.
    + intros [rest H]. exists [], rest. done.
    + intros (before & after & H). symmetry in H.
      apply app_eq_nil in H as [-> H]. apply app_eq_nil in H as [-> ->].
      exists []. done.
  - rewrite orb_true_iff, startswith_spec, IH. split.
    + intros [[rest H] | (before & after & H)].
      * exists [], rest. done.
      * exists (c :: before), after. rewrite H. done.
    + intros (before & after & H). destruct before as [|c' before].
      * left. exists after. done.
      * right. injection H as -> ->. eauto.
Qed.

Lemma contains_false (p s : str) :
  Str.contains p s = false ↔ ¬ substring p s.
Proof. rewrite <- contains_spec. destruct (Str.contains p s); naive_solver. Qed.

Lemma segments_no_sep (sep : N) (s : str) :
  sep ∉ s → Str.segments sep s = (s, []).
Proof.
  induction s as [|c s IH]; simpl; [done|].
  intros H. apply not_elem_of_cons in H as [Hc Hs].
  rewrite (IH Hs). destruct (N.eqb_spec c sep); congruence.
Qed.

Lemma segments_sep_more (sep : N) (a b : str) :
  (Str.segments sep (a ++ sep :: b)).2 ≠ [].
Proof.
  induction a as [|c a IH]; simpl.
  - destruct (Str.segments sep b). rewrite N.eqb_refl. done.
  - destruct (Str.segments sep (a ++ sep :: b)) as [w ws].
    destruct (c =? sep)%N; simpl in *; done.
Qed.

Lemma final_segment_no_slash (s : str) :
  slash ∉ s → final_segment s = s.
Proof.
  intros H. unfold final_segment, Str.split.
  rewrite (segments_no_sep _ _ H). done.
Qed.

Lemma final_segment_after_slash (dir name : str) :
  final_segment (dir ++ slash :: name) = final_segment name.
Proof.
  unfold final_segment, Str.split. induction dir as [|c dir IH]; simpl.
  - destruct (Str.segments slash name) as [w ws]. done.
  - pose proof (segments_sep_more slash dir name) as Hne.
    destruct (Str.segments slash (dir ++ slash :: name)) as [w ws].
    simpl in Hne. destruct ws as [|w' ws]; [done|].
    destruct (c =? slash)%N; exact IH.
Qed.

Lemma final_segment_trailing_slash (dir : str) :
  final_segment (dir ++ [slash]) = [].
Proof. apply final_segment_after_slash. Qed.

Lemma final_segment_spec (path : str) :
  (slash ∉ final_segment path) ∧
  (path = final_segment path ∨
   ∃ dir, path = dir ++ slash :: final_segment path).
Proof.
  induction path as [|c path [IHn IHs]].
  - split; [apply not_elem_of_nil | by left].
  - destruct (N.eqb_spec c slash) as [->|Hc].
    + pose proof (final_segment_after_slash [] path) as E. simpl in E.
      rewrite E. split; [done|]. right. destruct IHs as [H | [dir H]].
      * exists []. simpl. by rewrite <- H.
      * exists (slash :: dir). simpl. by rewrite <- H.
    + destruct IHs as [H | [dir H]].
      * assert (slash ∉ c :: path) as Hno.
        { rewrite H. apply not_elem_of_cons. done. }
        rewrite (final_segment_no_slash _ Hno). split; [done | by left].
      * pose proof (final_segment_after_slash (c :: dir) (final_segment path))
          as E.
        simpl in E. rewrite <- H in E.
        pose proof (final_segment_no_slash _ IHn) as E'. rewrite E' in E.
        rewrite E. split; [done|]. right. exists (c :: dir).
        simpl. by rewrite <- H.
Qed.

(** ** The steps of the hook *)

Ltac step :=
  unfold mbind, M_bind, mret, M_ret, raise, sys_exit, print; simpl.

Lemma py_index_last {A} (l : list A) (x : A) (out : str) :
  last l = Some x → py_index l (-1) out = (Val x, out).
Proof.
  intros H. unfold py_index. rewrite last_lookup in H.
  assert (length l ≠ 0)%nat as Hlen by (intros E; rewrite E in H; destruct l; done).
  replace (-1 <? 0) with true by done.
  destruct (Z.ltb_spec (-1 + Z.of_nat (length l)) 0) as [|_]; [lia|].
  destruct (Z.leb_spec (Z.of_nat (length l)) (-1 + Z.of_nat (length l)))
    as [|_]; [lia|].
  replace (Z.to_nat (-1 + Z.of_nat (length l))) with (pred (length l)) by lia.
  simpl. rewrite H. done.
Qed.

Lemma split_last (s : str) :
  last (Str.split s slash) = Some (final_segment s).
Proof.
  unfold final_segment, Str.split.
  destruct (Str.segments slash s) as [w ws].
  destruct (last (w :: ws)) eqn:E; [done|].
  apply last_None in E. done.
Qed.

Lemma get_filename_str (file_path : str) :
  returns (get_filename (PStr file_path)) (final_segment file_path).
Proof.
  intros out. unfold get_filename. destruct file_path as [|c s]; [done|].
  simpl. step. apply py_index_last, split_last.
Qed.

Lemma PROTECTED_FILES_spec (name : str) :
  name ∈ PROTECTED_FILES ↔
  name = lit ".env" ∨ name = lit ".env.local" ∨
  name = lit ".env.production" ∨ name = lit "credentials.json".
Proof.
  unfold PROTECTED_FILES. rewrite !elem_of_union, !elem_of_singleton. tauto.
Qed.

Lemma empty_name_unprotected : [] ∉ PROTECTED_FILES.
Proof. rewrite PROTECTED_FILES_spec. intros [H|[H|[H|H]]]; discriminate. Qed.

(** The pattern check on a string, as a search for the first pattern that
    occurs in it. *)
Lemma patterns_str (file_path : str) (out : str) :
  (for_each PROTECTED_PATTERNS (λ pattern,
     found ← py_in pattern (PStr file_path);
     if (found : bool)
     then print (pattern_message pattern);; sys_exit 2
     else mret tt);; sys_exit 0) out =
  match find (λ pattern, Str.contains pattern file_path) PROTECTED_PATTERNS with
  | Some pattern => exits 2 (out ++ line (pattern_message pattern))
  | None => exits 0 out
  end.
Proof.
  unfold PROTECTED_PATTERNS. step.
  destruct (Str.contains (lit "id_rsa") file_path); [done|].
  destruct (Str.contains (lit ".pem") file_path); [done|].
  destruct (Str.contains (lit ".key") file_path); done.
Qed.

Lemma check_str (file_path : str) (out : str) :
  check (PStr file_path) out =
  if bool_decide (final_segment file_path ∈ PROTECTED_FILES)
  then exits 2 (out ++ line (protected_file_message (final_segment file_path)))
  else match find (λ pattern, Str.contains pattern file_path)
                  PROTECTED_PATTERNS with
       | Some pattern => exits 2 (out ++ line (pattern_message pattern))
       | None => exits 0 out
       end.
Proof.
  unfold check. unfold mbind at 1, M_bind at 1.
  rewrite get_filename_str.
  destruct (bool_decide (final_segment file_path ∈ PROTECTED_FILES)); [done|].
  apply patterns_str.
Qed.

Lemma get_file_path_cases (input_data : pyobj) :
  (∃ file_path, returns (get_file_path input_data) file_path) ∨
  (∀ out, get_file_path input_data out = (Raise AttributeError, out)).
Proof.
  unfold get_file_path, returns.
  destruct input_data as [| | | | |l|d]; try (right; done).
  simpl. step.
  destruct (default (PDict ∅) (d !! lit "tool_input"))
    as [| | | | |l|t]; try (right; done).
  left. eexists. done.
Qed.

Lemma size_zero_lookup (d : gmap str pyobj) (key : str) :
  (size d =? 0)%nat = true → d !! key = None.
Proof.
  intros H. apply Nat.eqb_eq, map_size_empty_inv in H. by rewrite H.
Qed.

(** A path that is not a string ends the checks without a word: with
    [sys.exit(0)] when it is an empty list or an empty dictionary, and
    with an [AttributeError] or a [TypeError] otherwise. *)
Lemma check_not_str (file_path : pyobj) (out : str) :
  (∀ s, file_path ≠ PStr s) →
  check file_path out = exits 0 out ∨
  ∃ e, is_Exception e = true ∧ check file_path out = (Raise e, out).
Proof.
  intros Hns. unfold check, get_filename.
  destruct file_path as [|b|z|f|s|l|d]; simpl.
  - right. exists TypeError. done.
  - right. destruct b; [exists AttributeError | exists TypeError]; done.
  - right. destruct (negb (z =? 0));
      [exists AttributeError | exists TypeError]; done.
  - right. destruct (float_truth f);
      [exists AttributeError | exists TypeError]; done.
  - by destruct (Hns s).
  - destruct l as [|x l]; [left; done|].
    right. exists AttributeError. done.
  - destruct (size d =? 0)%nat eqn:E; simpl.
    + left. step. unfold PROTECTED_PATTERNS. simpl. step.
      rewrite !(size_zero_lookup d _ E). done.
    + right. exists AttributeError. done.
Qed.

Lemma try_exits {A} (body handler : M A) (code : Z) (out out' : str) :
  body out = (Raise (SystemExit code), out') →
  try_except_Exception body handler out = (Raise (SystemExit code), out').
Proof. intros H. unfold try_except_Exception. rewrite H. done. Qed.

Lemma try_fail_open {A} (body : M A) (e : pyexc) (out out' : str) :
  body out = (Raise e, out') → is_Exception e = true →
  try_except_Exception body (sys_exit 0) out = (Raise (SystemExit 0), out').
Proof. intros H He. unfold try_except_Exception. rewrite H, He. done. Qed.

Lemma load_exc_Exception (e : load_error) : is_Exception (load_exc e) = true.
Proof. by destruct e. Qed.

Lemma check_str_exits (file_path : str) (out : str) :
  ∃ code out', check (PStr file_path) out = exits code out'.
Proof.
  rewrite check_str.
  destruct (bool_decide _); [eauto|]. destruct (find _ _); eauto.
Qed.

Section Main.

Variable json_load : list Byte.byte → loaded pyobj.

Lemma main_load_fails stdin e out :
  json_load stdin = LoadFails e →
  main json_load stdin out = exits 0 out.
Proof.
  intros H. unfold main. eapply try_fail_open.
  - unfold load. rewrite H. step. done.
  - apply load_exc_Exception.
Qed.

Lemma main_str stdin input_data file_path out :
  json_load stdin = Loaded input_data →
  returns (get_file_path input_data) (PStr file_path) →
  main json_load stdin out = check (PStr file_path) out.
Proof.
  intros Hload Hpath. unfold main.
  destruct (check_str_exits file_path out) as (code & out' & Hc).
  rewrite Hc. apply try_exits.
  unfold load. rewrite Hload. step. rewrite Hpath. exact Hc.
Qed.

Lemma main_not_str stdin input_data out :
  json_load stdin = Loaded input_data →
  (∀ s, ¬ returns (get_file_path input_data) (PStr s)) →
  main json_load stdin out = exits 0 out.
Proof.
  intros Hload Hns. unfold main.
  destruct (get_file_path_cases input_data) as [[v Hv] | Hraise].
  - destruct (check_not_str v out) as [Hc | (e & He & Hc)].
    + intros s ->. by apply (Hns s).
    + apply try_exits. unfold load. rewrite Hload. step. rewrite Hv. done.
    + eapply try_fail_open; [|exact He].
      unfold load. rewrite Hload. step. rewrite Hv. done.
  - eapply (try_fail_open _ AttributeError); [|done].
    unfold load. rewrite Hload. step. rewrite Hraise. done.
Qed.

(** Every run either allows without a word or is decided by the checks
    on a path that is a string. *)
Lemma main_cases stdin out :
  main json_load stdin out = exits 0 out ∨
  ∃ input_data file_path,
    json_load stdin = Loaded input_data ∧
    returns (get_file_path input_data) (PStr file_path) ∧
    main json_load stdin out = check (PStr file_path) out.
Proof.
  destruct (json_load stdin) as [input_data|e] eqn:Hload.
  - destruct (get_file_path_cases input_data) as [[v Hv] | Hraise].
    + destruct v as [| | | |s| |];
        try (left; apply (main_not_str _ _ _ Hload); intros s Hs;
             specialize (Hv []); specialize (Hs []); congruence).
      right. exists input_data, s. eauto using main_str.
    + left. apply (main_not_str _ _ _ Hload). intros s Hs.
      specialize (Hraise []). specialize (Hs []). congruence.
  - left. eauto using main_load_fails.
Qed.

Lemma run_main stdin r out :
  main json_load stdin [] = (r, out) →
  run json_load stdin = Outcome (exit_status r) out.
Proof. intros H. unfold run. rewrite H. done. Qed.

Lemma run_exits stdin code out :
  main json_load stdin [] = exits code out →
  run json_load stdin = Outcome code out.
Proof. apply run_main. Qed.

End Main.

Lemma protected_names (name : str) :
  name ∈ [lit ".env"; lit ".env.local"; lit ".env.production";
          lit "credentials.json"] ↔ name ∈ PROTECTED_FILES.
Proof.
  rewrite PROTECTED_FILES_spec, !elem_of_cons, elem_of_nil. tauto.
Qed.

Lemma find_first {A} (f : A → bool) (earlier later : list A) (x : A) :
  (∀ y, y ∈ earlier → f y = false) → f x = true →
  find f (earlier ++ x :: later) = Some x.
Proof.
  intros Hearlier Hx. induction earlier as [|y earlier IH]; simpl.
  - by rewrite Hx.
  - rewrite (Hearlier y) by apply list_elem_of_here.
    apply IH. intros z Hz. apply Hearlier. by apply list_elem_of_further.
Qed.

Lemma find_pattern (file_path : str) :
  (∃ pattern, pattern ∈ PROTECTED_PATTERNS ∧ substring pattern file_path) →
  ∃ pattern, pattern ∈ PROTECTED_PATTERNS ∧ substring pattern file_path ∧
    find (λ pattern, Str.contains pattern file_path) PROTECTED_PATTERNS
    = Some pattern.
Proof.
  intros (p & Hin & Hsub).
  destruct (find _ PROTECTED_PATTERNS) as [q|] eqn:E.
  - apply find_some in E as [Hq Hc]. exists q.
    rewrite list_elem_of_In, <- contains_spec. done.
  - apply list_elem_of_In in Hin. apply (find_none _ _ E) in Hin.
    apply contains_spec in Hsub. simpl in Hin. congruence.
Qed.

Lemma find_no_pattern (file_path : str) :
  (∀ pattern, pattern ∈ PROTECTED_PATTERNS → ¬ substring pattern file_path) →
  find (λ pattern, Str.contains pattern file_path) PROTECTED_PATTERNS = None.
Proof.
  intros H. destruct (find _ PROTECTED_PATTERNS) as [q|] eqn:E; [|done].
  apply find_some in E as [Hq Hc].
  destruct (H q); [by apply list_elem_of_In | by apply contains_spec].
Qed.

(** The two messages differ, whatever name and pattern they carry. *)
Lemma messages_differ (name pattern : str) :
  line (protected_file_message name) ≠ line (pattern_message pattern).
Proof.
  unfold line, protected_file_message, pattern_message. simpl. discriminate.
Qed.

Lemma line_not_empty (s : str) : line s ≠ [].
Proof. unfold line. destruct s; discriminate. Qed.

(** ** The decoder: what is read, and the fuel *)

Local Open Scope nat_scope.

Lemma skip_ws_length (s : str) : length (Json.skip_ws s) ≤ length s.
Proof.
  induction s as [|c s IH]; simpl; [lia|].
  destruct (Json.whitespace c); simpl; lia.
Qed.

Lemma after_length (w : string) (s r : str) :
  Json.after w s = Some r → length r + length (lit w) = length s.
Proof.
  unfold Json.after. destruct (Str.startswith (lit w) s) eqn:E; [|done].
  apply startswith_spec in E as [rest ->]. intros [= <-].
  rewrite drop_app_length, length_app. lia.
Qed.

Lemma digits_length (s : str) : length (Json.digits s).2 ≤ length s.
Proof.
  induction s as [|c s IH]; simpl; [lia|].
  destruct (Json.digit c); simpl; [|lia].
  destruct (Json.digits s). simpl in *. lia.
Qed.

Lemma sign_part_length (s : str) : length (Json.sign_part s).2 ≤ length s.
Proof.
  destruct s as [|c s]; simpl; [lia|]. destruct (Json.eqc "-" c); simpl; lia.
Qed.

Lemma integer_part_length (s r : str) (ds : list Z) :
  Json.integer_part s = Some (ds, r) → length r < length s.
Proof.
  destruct s as [|c s]; [done|]. unfold Json.integer_part.
  destruct (Json.eqc "0" c); [intros [= <- <-]; simpl; lia|].
  destruct (Json.digit c) eqn:E; [|done]. intros [= H].
  pose proof (digits_length s) as Hs. simpl in H. rewrite E in H.
  destruct (Json.digits s). simplify_eq. simpl in *. lia.
Qed.

Lemma fraction_part_length (s : str) :
  length (Json.fraction_part s).2 ≤ length s.
Proof.
  destruct s as [|c [|d s]]; simpl; try lia.
  destruct (_ && _); simpl; [|lia].
  pose proof (digits_length (d :: s)). simpl in *. lia.
Qed.

Lemma exponent_part_length (s : str) :
  length (Json.exponent_part s).2 ≤ length s.
Proof.
  destruct s as [|c s]; simpl; [lia|].
  destruct (_ || _); simpl; [|lia].
  destruct s as [|c1 s]; simpl; [lia|].
  destruct (Json.eqc "-" c1); [|destruct (Json.eqc "+" c1)].
  - pose proof (digits_length s).
    destruct (Json.digits s) as [[|] ?]; simpl in *; lia.
  - pose proof (digits_length s).
    destruct (Json.digits s) as [[|] ?]; simpl in *; lia.
  - pose proof (digits_length (c1 :: s)).
    destruct (Json.digits (c1 :: s)) as [[|] ?]; simpl in *; lia.
Qed.

Lemma number_length (s r : str) (v : loaded pyobj) :
  Json.number s = Some (v, r) → length r < length s.
Proof.
  unfold Json.number.
  pose proof (sign_part_length s) as H1.
  destruct (Json.sign_part s) as [negative s1].
  destruct (Json.integer_part s1) as [[int_ds s2]|] eqn:E2; [|done].
  apply integer_part_length in E2.
  pose proof (fraction_part_length s2) as H3.
  destruct (Json.fraction_part s2) as [frac_ds s3].
  pose proof (exponent_part_length s3) as H4.
  destruct (Json.exponent_part s3) as [exp s4]. simpl in *.
  intros H. assert (r = s4) as ->; [|lia].
  destruct frac_ds, exp; try case_bool_decide; congruence.
Qed.

Lemma push_Loaded (c : N) (x : loaded (str * str)) (k r : str) :
  Json.push c x = Loaded (k, r) → ∃ k', x = Loaded (k', r).
Proof. destruct x as [[k' r']|e]; [|done]. intros [= _ <-]. eauto. Qed.

Lemma scanstring_length (s k r : str) :
  Json.scanstring s = Loaded (k, r) → length r < length s.
Proof.
  assert (∀ n s k r, length s ≤ n → Json.scanstring s = Loaded (k, r) →
                     length r < length s) as Hn; [|by apply (Hn (length s))].
  clear s k r. intros n.
  induction n as [|n IH]; intros s k r Hle H;
    destruct s as [|c s]; try discriminate H; simpl in Hle; [lia|].
  assert (∀ c' s', length s' ≤ n →
            Json.push c' (Json.scanstring s') = Loaded (k, r) →
            length r < length s') as Hpush.
  { intros c' s' Hs' Hp. apply push_Loaded in Hp as [k' Hp].
    exact (IH s' k' r Hs' Hp). }
  cbn [Json.scanstring] in H.
  destruct (c =? Json.quote)%N; [injection H as <- <-; simpl; lia|].
  destruct (c =? Json.backslash)%N.
  - destruct s as [|e r1]; [done|]. destruct (Json.eqc "u" e).
    + destruct r1 as [|h1 [|h2 [|h3 [|h4 r2]]]]; try done.
      destruct (Json.hex4 h1 h2 h3 h4) as [cp|]; [|done].
      simpl in Hle.
      assert (Json.push cp (Json.scanstring r2) = Loaded (k, r) →
              length r < length (c :: e :: h1 :: h2 :: h3 :: h4 :: r2)) as H2.
      { intros Hp. apply Hpush in Hp; simpl; lia. }
      destruct r2 as [|b [|u [|k1 [|k2 [|k3 [|k4 r3]]]]]]; try (exact (H2 H)).
      destruct (_ && _); [|exact (H2 H)].
      destruct (Json.hex4 k1 k2 k3 k4) as [cp2|]; [|done].
      destruct (Json.low_surrogate cp2); [|exact (H2 H)].
      apply Hpush in H; simpl in *; lia.
    + destruct (Json.escape e); [|done].
      apply Hpush in H; simpl in *; lia.
  - destruct (c <? 32)%N; [done|]. apply Hpush in H; simpl; lia.
Qed.

Lemma bind_Loaded {A B} (m : loaded A) (f : A → loaded B) (b : B) :
  m ≫= f = Loaded b → ∃ a, m = Loaded a ∧ f a = Loaded b.
Proof. destruct m as [a|e]; [eauto | done]. Qed.

Lemma skip_ws_cons (s : str) (c : N) (r : str) :
  Json.skip_ws s = c :: r → length r < length s.
Proof. intros H. pose proof (skip_ws_length s). rewrite H in *. simpl in *. lia. Qed.

Ltac constant H :=
  match type of H with
  | match Json.after ?w ?s with _ => _ end = _ =>
      let E := fresh "E" in
      destruct (Json.after w s) eqn:E; [|discriminate H];
      apply after_length in E; injection H as <- <-;
      vm_compute (length (lit w)) in E; lia
  end.

(** What a value leaves is shorter than the text it was read from. *)
Lemma value_length (fuel : nat) :
  (∀ depth s v r,
     Json.value fuel depth s = Loaded (v, r) → length r < length s) ∧
  (∀ depth d s v r,
     Json.members fuel depth d s = Loaded (v, r) → length r < length s) ∧
  (∀ depth acc s v r,
     Json.elements fuel depth acc s = Loaded (v, r) → length r < length s).
Proof.
  induction fuel as [|fuel (IHv & IHm & IHe)]; [repeat split; discriminate|].
  repeat split.
  - intros depth s v r H. destruct s as [|c s]; [done|].
    cbn [Json.value] in H.
    destruct (c =? Json.quote)%N.
    { apply bind_Loaded in H as ([k r'] & Hs & [= <- <-]).
      apply scanstring_length in Hs. simpl. lia. }
    destruct (Json.eqc "{" c).
    { destruct depth; [done|].
      destruct (Json.skip_ws s) as [|c' r'] eqn:E; [done|].
      apply skip_ws_cons in E.
      destruct (Json.eqc "}" c'); [injection H as <- <-; simpl; lia|].
      apply IHm in H. simpl in *. lia. }
    destruct (Json.eqc "[" c).
    { destruct depth; [done|].
      destruct (Json.skip_ws s) as [|c' r'] eqn:E; [done|].
      apply skip_ws_cons in E.
      destruct (Json.eqc "]" c'); [injection H as <- <-; simpl; lia|].
      apply IHe in H. simpl in *. lia. }
    destruct (Json.eqc "n" c); [constant H|].
    destruct (Json.eqc "t" c); [constant H|].
    destruct (Json.eqc "f" c); [constant H|].
    destruct (Json.eqc "N" c); [constant H|].
    destruct (Json.eqc "I" c); [constant H|].
    destruct (Json.after "-Infinity" (c :: s)) eqn:E.
    { apply after_length in E. injection H as <- <-.
      vm_compute (length (lit _)) in E. lia. }
    destruct (Json.number (c :: s)) as [[[v'|e] r']|] eqn:En; try done.
    apply number_length in En. injection H as <- <-. done.
  - intros depth d s v r H. destruct s as [|c s]; [done|].
    cbn [Json.members] in H.
    destruct (c =? Json.quote)%N; [|done].
    apply bind_Loaded in H as ([key r1] & Hs & H).
    apply scanstring_length in Hs.
    destruct (Json.skip_ws r1) as [|c2 r2] eqn:E1; [done|].
    apply skip_ws_cons in E1.
    destruct (Json.eqc ":" c2); [|done].
    apply bind_Loaded in H as ([v' r3] & Hv & H). apply IHv in Hv.
    pose proof (skip_ws_length r2) as E2.
    destruct (Json.skip_ws r3) as [|c4 r4] eqn:E3; [done|].
    apply skip_ws_cons in E3.
    destruct (Json.eqc "}" c4); [injection H as <- <-; simpl; lia|].
    destruct (Json.eqc "," c4); [|done].
    apply IHm in H. pose proof (skip_ws_length r4). simpl. lia.
  - intros depth acc s v r H. cbn [Json.elements] in H.
    apply bind_Loaded in H as ([v' r1] & Hv & H). apply IHv in Hv.
    destruct (Json.skip_ws r1) as [|c2 r2] eqn:E1; [done|].
    apply skip_ws_cons in E1.
    destruct (Json.eqc "]" c2); [injection H as <- <-; lia|].
    destruct (Json.eqc "," c2); [|done].
    apply IHe in H. pose proof (skip_ws_length r2). lia.
Qed.

(** Fuel beyond twice the length of the text changes nothing. *)
Lemma value_fuel (fuel : nat) :
  (∀ fuel' depth s,
     2 * length s + 2 ≤ fuel → 2 * length s + 2 ≤ fuel' →
     Json.value fuel depth s = Json.value fuel' depth s) ∧
  (∀ fuel' depth d s,
     2 * length s + 1 ≤ fuel → 2 * length s + 1 ≤ fuel' →
     Json.members fuel depth d s = Json.members fuel' depth d s) ∧
  (∀ fuel' depth acc s,
     2 * length s + 3 ≤ fuel → 2 * length s + 3 ≤ fuel' →
     Json.elements fuel depth acc s = Json.elements fuel' depth acc s).
Proof.
  induction fuel as [|fuel (IHv & IHm & IHe)]; [repeat split; intros; lia|].
  repeat split.
  - intros [|fuel'] depth s Hf Hf'; [lia|].
    destruct s as [|c s]; [done|]. simpl in Hf, Hf'.
    cbn [Json.value].
    destruct (c =? Json.quote)%N; [done|].
    destruct (Json.eqc "{" c).
    { destruct depth; [done|].
      destruct (Json.skip_ws s) as [|c' r'] eqn:E; [done|].
      apply skip_ws_cons in E.
      destruct (Json.eqc "}" c'); [done|]. apply IHm; simpl; lia. }
    destruct (Json.eqc "[" c); [|done].
    destruct depth; [done|].
    destruct (Json.skip_ws s) as [|c' r'] eqn:E; [done|].
    apply skip_ws_cons in E.
    destruct (Json.eqc "]" c'); [done|]. apply IHe; simpl; lia.
  - intros [|fuel'] depth d s Hf Hf'; [lia|].
    destruct s as [|c s]; [done|]. simpl in Hf, Hf'.
    cbn [Json.members].
    destruct (c =? Json.quote)%N; [|done].
    destruct (Json.scanstring s) as [[key r1]|e] eqn:Hs; [|done].
    apply scanstring_length in Hs. cbn [mbind loaded_bind].
    destruct (Json.skip_ws r1) as [|c2 r2] eqn:E1; [done|].
    apply skip_ws_cons in E1.
    destruct (Json.eqc ":" c2); [|done].
    pose proof (skip_ws_length r2) as E2.
    rewrite (IHv fuel') by lia.
    destruct (Json.value fuel' depth (Json.skip_ws r2)) as [[v r3]|e] eqn:Hv;
      [|done].
    apply (proj1 (value_length fuel')) in Hv. cbn [mbind loaded_bind].
    destruct (Json.skip_ws r3) as [|c4 r4] eqn:E3; [done|].
    apply skip_ws_cons in E3.
    destruct (Json.eqc "}" c4); [done|].
    destruct (Json.eqc "," c4); [|done].
    pose proof (skip_ws_length r4). apply IHm; lia.
  - intros [|fuel'] depth acc s Hf Hf'; [lia|].
    cbn [Json.elements]. rewrite (IHv fuel') by lia.
    destruct (Json.value fuel' depth s) as [[v r1]|e] eqn:Hv; [|done].
    apply (proj1 (value_length fuel')) in Hv. cbn [mbind loaded_bind].
    destruct (Json.skip_ws r1) as [|c2 r2] eqn:E1; [done|].
    apply skip_ws_cons in E1.
    destruct (Json.eqc "]" c2); [done|].
    destruct (Json.eqc "," c2); [|done].
    pose proof (skip_ws_length r2). apply IHe; lia.
Qed.

(** [json.loads] does not depend on the fuel it gives to [value]. *)
Lemma loads_fuel (s : str) (fuel : nat) :
  2 * length s + 2 ≤ fuel →
  Json.value fuel Json.recursion_limit (Json.skip_ws s) =
  Json.value (2 * length s + 2) Json.recursion_limit (Json.skip_ws s).
Proof.
  intros H. pose proof (skip_ws_length s).
  apply (proj1 (value_fuel fuel)); lia.
Qed.

Local Close Scope nat_scope.

(** ** The contract of the hook *)

(** C1.  When the final segment of the parsed [file_path] is one of
    [.env], [.env.local], [.env.production], [credentials.json], the hook
    exits with status 2 and prints exactly the line
    [BLOCKED: Cannot edit protected file: <filename>]. *)
Theorem protected_file_is_blocked
    (json_load : list Byte.byte → loaded pyobj) (stdin : list Byte.byte)
    (input_data : pyobj) (file_path filename : str) :
  json_load stdin = Loaded input_data →
  returns (get_file_path input_data) (PStr file_path) →
  final_segment file_path = filename →
  filename ∈ [lit ".env"; lit ".env.local"; lit ".env.production";
              lit "credentials.json"] →
  run json_load stdin =
  Outcome 2 (line (lit "BLOCKED: Cannot edit protected file: " ++ filename)).
Proof.
  intros Hload Hpath <- Hname. apply protected_names in Hname.
  apply run_exits. rewrite (main_str _ _ _ _ _ Hload Hpath), check_str.
  by rewrite (bool_decide_eq_true_2 _ Hname).
Qed.

Lemma protected_file_is_blocked_witness :
  hook (Json.document "{'tool_input':{'file_path':'/home/user/.env'}}") =
  Outcome 2 (line (lit "BLOCKED: Cannot edit protected file: .env")).
Proof.
  eapply (protected_file_is_blocked Json.load _ _ (lit "/home/user/.env")).
  - vm_compute. reflexivity.
  - intros out. vm_compute. reflexivity.
  - vm_compute. reflexivity.
  - apply list_elem_of_here.
Defined.

(** C2.  When the parsed [file_path] contains [id_rsa], [.pem] or [.key]
    as a substring and its final segment is not a protected name, the
    hook exits with status 2 and prints exactly the line
    [BLOCKED: Cannot edit file matching pattern: <pattern>] for a pattern
    the path contains. *)
Theorem pattern_is_blocked
    (json_load : list Byte.byte → loaded pyobj) (stdin : list Byte.byte)
    (input_data : pyobj) (file_path : str) :
  json_load stdin = Loaded input_data →
  returns (get_file_path input_data) (PStr file_path) →
  final_segment file_path ∉ [lit ".env"; lit ".env.local";
                             lit ".env.production"; lit "credentials.json"] →
  (∃ pattern, pattern ∈ [lit "id_rsa"; lit ".pem"; lit ".key"] ∧
              substring pattern file_path) →
  ∃ pattern, pattern ∈ [lit "id_rsa"; lit ".pem"; lit ".key"] ∧
    substring pattern file_path ∧
    run json_load stdin =
    Outcome 2
      (line (lit "BLOCKED: Cannot edit file matching pattern: " ++ pattern)).
Proof.
  intros Hload Hpath Hname Hsome. rewrite protected_names in Hname.
  destruct (find_pattern file_path Hsome) as (p & Hin & Hsub & Hfind).
  exists p. split; [done|]. split; [done|].
  apply run_exits. rewrite (main_str _ _ _ _ _ Hload Hpath), check_str.
  by rewrite (bool_decide_eq_false_2 _ Hname), Hfind.
Qed.

Lemma pattern_is_blocked_witness :
  ∃ pattern, pattern ∈ [lit "id_rsa"; lit ".pem"; lit ".key"] ∧
    substring pattern (lit "/keys/id_rsa") ∧
    hook (Json.document "{'tool_input':{'file_path':'/keys/id_rsa'}}") =
    Outcome 2
      (line (lit "BLOCKED: Cannot edit file matching pattern: " ++ pattern)).
Proof.
  eapply (pattern_is_blocked Json.load).
  - vm_compute. reflexivity.
  - intros out. vm_compute. reflexivity.
  - rewrite !not_elem_of_cons. repeat split; try discriminate.
    apply not_elem_of_nil.
  - exists (lit "id_rsa"). split; [apply list_elem_of_here|].
    exists (lit "/keys/"), []. reflexivity.
Defined.

(** C3.  When the parsed [file_path] is a string whose final segment is
    not a protected name and which contains none of the three patterns,
    the hook exits with status 0 and prints nothing. *)
Theorem unprotected_path_is_allowed
    (json_load : list Byte.byte → loaded pyobj) (stdin : list Byte.byte)
    (input_data : pyobj) (file_path : str) :
  json_load stdin = Loaded input_data →
  returns (get_file_path input_data) (PStr file_path) →
  final_segment file_path ∉ [lit ".env"; lit ".env.local";
                             lit ".env.production"; lit "credentials.json"] →
  (∀ pattern, pattern ∈ [lit "id_rsa"; lit ".pem"; lit ".key"] →
              ¬ substring pattern file_path) →
  run json_load stdin = Outcome 0 [].
Proof.
  intros Hload Hpath Hname Hnone. rewrite protected_names in Hname.
  apply run_exits. rewrite (main_str _ _ _ _ _ Hload Hpath), check_str.
  by rewrite (bool_decide_eq_false_2 _ Hname), (find_no_pattern _ Hnone).
Qed.

Lemma unprotected_path_is_allowed_witness :
  hook (Json.document "{'tool_input':{'file_path':'/src/main.py'}}") =
  Outcome 0 [].
Proof.
  eapply (unprotected_path_is_allowed Json.load _ _ (lit "/src/main.py")).
  - vm_compute. reflexivity.
  - intros out. vm_compute. reflexivity.
  - rewrite !not_elem_of_cons. repeat split; try discriminate.
    apply not_elem_of_nil.
  - intros pattern Hin. apply contains_false.
    rewrite !elem_of_cons, elem_of_nil in Hin.
    destruct Hin as [->|[->|[->|[]]]]; reflexivity.
Defined.

(** C4.  When [json.load] fails on the stream, the hook exits with status
    0 and prints nothing: the error is caught and [main] ends with
    [sys.exit(0)]. *)
Theorem malformed_input_is_allowed
    (json_load : list Byte.byte → loaded pyobj) (stdin : list Byte.byte)
    (e : load_error) :
  json_load stdin = LoadFails e →
  main json_load stdin [] = exits 0 [] ∧
  run json_load stdin = Outcome 0 [].
Proof.
  intros Hload. pose proof (main_load_fails json_load stdin e [] Hload) as H.
  split; [exact H | exact (run_exits _ _ _ _ H)].
Qed.

Lemma malformed_input_is_allowed_witness :
  Json.load (Json.document "{'tool_input':{'file_path':") =
    LoadFails LoadJSONDecodeError ∧
  main Json.load (Json.document "{'tool_input':{'file_path':") [] = exits 0 [] ∧
  hook (Json.document "{'tool_input':{'file_path':") = Outcome 0 [].
Proof.
  assert (Json.load (Json.document "{'tool_input':{'file_path':") =
          LoadFails LoadJSONDecodeError) as H by (vm_compute; reflexivity).
  split; [exact H|].
  exact (malformed_input_is_allowed Json.load _ _ H).
Defined.

(** C5.  When the JSON object has no key [tool_input], or the object under
    [tool_input] has no key [file_path], the path is the empty string and
    the hook exits with status 0, printing nothing. *)
Theorem missing_key_is_allowed
    (json_load : list Byte.byte → loaded pyobj) (stdin : list Byte.byte)
    (input_data : pyobj) :
  json_load stdin = Loaded input_data →
  key_absent input_data →
  returns (get_file_path input_data) (PStr []) ∧
  run json_load stdin = Outcome 0 [].
Proof.
  intros Hload Habsent.
  assert (returns (get_file_path input_data) (PStr [])) as Hpath.
  { intros out. destruct Habsent as [d Hd | d t Hd Ht];
      unfold get_file_path; simpl; step; rewrite Hd; simpl; [done|].
    by rewrite Ht. }
  split; [exact Hpath|].
  apply run_exits. rewrite (main_str _ _ _ _ _ Hload Hpath), check_str.
  reflexivity.
Qed.

Lemma missing_key_is_allowed_witness :
  (returns (get_file_path (PDict {[ lit "tool_input" := PDict ∅ ]}))
           (PStr []) ∧
   hook (Json.document "{'tool_input':{}}") = Outcome 0 []) ∧
  (returns (get_file_path (PDict {[ lit "other" := PInt 1 ]})) (PStr []) ∧
   hook (Json.document "{'other':1}") = Outcome 0 []).
Proof.
  split.
  - apply (missing_key_is_allowed Json.load).
    + vm_compute. reflexivity.
    + apply (file_path_absent _ ∅); reflexivity.
  - apply (missing_key_is_allowed Json.load).
    + vm_compute. reflexivity.
    + apply tool_input_absent. reflexivity.
Defined.

(** C6.  The patterns are tried in the order [id_rsa], [.pem], [.key], and
    the message names the first one the path contains: a pattern that
    occurs in the path, none of those before it in the list occurring. *)
Theorem first_pattern_in_order_wins
    (json_load : list Byte.byte → loaded pyobj) (stdin : list Byte.byte)
    (input_data : pyobj) (file_path : str)
    (earlier : list str) (pattern : str) (later : list str) :
  json_load stdin = Loaded input_data →
  returns (get_file_path input_data) (PStr file_path) →
  final_segment file_path ∉ [lit ".env"; lit ".env.local";
                             lit ".env.production"; lit "credentials.json"] →
  [lit "id_rsa"; lit ".pem"; lit ".key"] = earlier ++ pattern :: later →
  substring pattern file_path →
  (∀ p, p ∈ earlier → ¬ substring p file_path) →
  run json_load stdin =
  Outcome 2
    (line (lit "BLOCKED: Cannot edit file matching pattern: " ++ pattern)).
Proof.
  intros Hload Hpath Hname Hlist Hsub Hearlier. rewrite protected_names in Hname.
  apply run_exits. rewrite (main_str _ _ _ _ _ Hload Hpath), check_str.
  rewrite (bool_decide_eq_false_2 _ Hname).
  unfold PROTECTED_PATTERNS. rewrite Hlist.
  rewrite (find_first _ earlier later pattern); [done| |by apply contains_spec].
  intros p Hp. by apply contains_false, Hearlier.
Qed.

Lemma first_pattern_in_order_wins_witness :
  substring (lit ".pem") (lit "/certs/server.key.pem") ∧
  substring (lit ".key") (lit "/certs/server.key.pem") ∧
  hook (Json.document "{'tool_input':{'file_path':'/certs/server.key.pem'}}") =
  Outcome 2 (line (lit "BLOCKED: Cannot edit file matching pattern: .pem")).
Proof.
  split; [by exists (lit "/certs/server.key"), [] |].
  split; [by exists (lit "/certs/server"), (lit ".pem") |].
  eapply (first_pattern_in_order_wins Json.load _ _
            (lit "/certs/server.key.pem") [lit "id_rsa"] (lit ".pem")
            [lit ".key"]).
  - vm_compute. reflexivity.
  - intros out. vm_compute. reflexivity.
  - rewrite !not_elem_of_cons. repeat split; try discriminate.
    apply not_elem_of_nil.
  - reflexivity.
  - by exists (lit "/certs/server.key"), [].
  - intros p Hp. apply contains_false.
    rewrite elem_of_cons, elem_of_nil in Hp. destruct Hp as [->|[]].
    reflexivity.
Defined.

(** C7.  The check of the file name comes first: when the final segment
    is a protected name and the path also contains a pattern, the hook
    prints the message of the protected file, not the message of a
    pattern, and exits with status 2. *)
Theorem protected_file_precedes_pattern
    (json_load : list Byte.byte → loaded pyobj) (stdin : list Byte.byte)
    (input_data : pyobj) (file_path : str) :
  json_load stdin = Loaded input_data →
  returns (get_file_path input_data) (PStr file_path) →
  final_segment file_path ∈ [lit ".env"; lit ".env.local";
                             lit ".env.production"; lit "credentials.json"] →
  (∃ pattern, pattern ∈ [lit "id_rsa"; lit ".pem"; lit ".key"] ∧
              substring pattern file_path) →
  run json_load stdin =
    Outcome 2 (line (lit "BLOCKED: Cannot edit protected file: "
                     ++ final_segment file_path)) ∧
  ∀ pattern,
    printed (run json_load stdin) ≠
    line (lit "BLOCKED: Cannot edit file matching pattern: " ++ pattern).
Proof.
  intros Hload Hpath Hname _. apply protected_names in Hname.
  assert (run json_load stdin =
          Outcome 2 (line (protected_file_message (final_segment file_path))))
    as Hrun.
  { apply run_exits. rewrite (main_str _ _ _ _ _ Hload Hpath), check_str.
    by rewrite (bool_decide_eq_true_2 _ Hname). }
  split; [exact Hrun|].
  intros pattern. rewrite Hrun. apply messages_differ.
Qed.

Lemma protected_file_precedes_pattern_witness :
  substring (lit ".pem") (lit "/backup.pem/.env") ∧
  hook (Json.document "{'tool_input':{'file_path':'/backup.pem/.env'}}") =
  Outcome 2 (line (lit "BLOCKED: Cannot edit protected file: .env")).
Proof.
  split; [by exists (lit "/backup"), (lit "/.env") |].
  eapply (protected_file_precedes_pattern Json.load _ _
            (lit "/backup.pem/.env")).
  - vm_compute. reflexivity.
  - intros out. vm_compute. reflexivity.
  - apply list_elem_of_here.
  - exists (lit ".pem"). split.
    + apply list_elem_of_further, list_elem_of_here.
    + by exists (lit "/backup"), (lit "/.env").
Defined.

(** C8.  Whatever standard input holds, [main] ends with [sys.exit(0)] or
    [sys.exit(2)]: no other exception leaves it, and the status of the
    process is 0 or 2. *)
Theorem exit_status_is_0_or_2
    (json_load : list Byte.byte → loaded pyobj) (stdin : list Byte.byte) :
  (∃ code out, main json_load stdin [] = exits code out ∧
               (code = 0 ∨ code = 2)) ∧
  (exit_code (run json_load stdin) = 0 ∨ exit_code (run json_load stdin) = 2).
Proof.
  assert (∃ code out, main json_load stdin [] = exits code out ∧
                      (code = 0 ∨ code = 2)) as (code & out & Hmain & Hcode).
  { destruct (main_cases json_load stdin []) as [H | (v & s & _ & _ & H)].
    - exists 0, []. auto.
    - rewrite H, check_str.
      destruct (bool_decide _); [eauto|]. destruct (find _ _); eauto. }
  split; [eauto|]. by rewrite (run_exits _ _ _ _ Hmain).
Qed.

(** C9.  A path that ends in ['/'] has an empty final segment, so the
    hook never prints the message of a protected file for it;
    [/home/user/.env/] is allowed, with status 0 and no output. *)
Theorem trailing_slash_hides_the_name
    (json_load : list Byte.byte → loaded pyobj) (stdin : list Byte.byte)
    (input_data : pyobj) (dir : str) :
  json_load stdin = Loaded input_data →
  returns (get_file_path input_data) (PStr (dir ++ [slash])) →
  final_segment (dir ++ [slash]) = [] ∧
  (∀ filename,
     printed (run json_load stdin) ≠
     line (lit "BLOCKED: Cannot edit protected file: " ++ filename)) ∧
  hook (Json.document "{'tool_input':{'file_path':'/home/user/.env/'}}") =
  Outcome 0 [].
Proof.
  intros Hload Hpath. pose proof (final_segment_trailing_slash dir) as Hseg.
  split; [exact Hseg|]. split; [|by vm_compute].
  intros filename.
  assert (∃ code out, run json_load stdin = Outcome code out ∧
            (out = [] ∨ ∃ pattern, out = line (pattern_message pattern)))
    as (code & out & -> & Hout).
  { pose proof (main_str _ _ _ _ [] Hload Hpath) as Hmain.
    rewrite check_str, Hseg in Hmain.
    rewrite (bool_decide_eq_false_2 _ empty_name_unprotected) in Hmain.
    destruct (find _ _) as [p|]; apply run_exits in Hmain; eauto 10. }
  simpl. destruct Hout as [-> | [pattern ->]].
  - intros H. symmetry in H. by apply line_not_empty in H.
  - intros H. symmetry in H. by apply messages_differ in H.
Qed.

Lemma trailing_slash_hides_the_name_witness :
  final_segment (lit "/home/user/.env" ++ [slash]) = [] ∧
  (∀ filename,
     printed (hook (Json.document
                      "{'tool_input':{'file_path':'/home/user/.env/'}}")) ≠
     line (lit "BLOCKED: Cannot edit protected file: " ++ filename)) ∧
  hook (Json.document "{'tool_input':{'file_path':'/home/user/.env/'}}") =
  Outcome 0 [].
Proof.
  eapply (trailing_slash_hides_the_name Json.load).
  - vm_compute. reflexivity.
  - intros out. vm_compute. reflexivity.
Defined.

(** C10.  A block is final.  [sys.exit(2)] raises [SystemExit], which is
    not an [Exception]: the [except Exception] clause lets it through, and
    a run that has printed anything exits with status 2. *)
Theorem block_is_not_converted
    (json_load : list Byte.byte → loaded pyobj) (stdin : list Byte.byte) :
  printed (run json_load stdin) ≠ [] →
  is_Exception (SystemExit 2) = false ∧
  (∀ (message : str) (handler : M unit) (out : str),
     try_except_Exception (print message;; sys_exit 2) handler out =
     exits 2 (out ++ line message)) ∧
  main json_load stdin [] = exits 2 (printed (run json_load stdin)) ∧
  exit_code (run json_load stdin) = 2.
Proof.
  intros Hprinted. split; [done|]. split; [done|].
  destruct (main_cases json_load stdin []) as [H | (v & s & _ & _ & H)].
  - rewrite (run_exits _ _ _ _ H) in Hprinted. done.
  - rewrite check_str in H.
    destruct (bool_decide _).
    + by rewrite (run_exits _ _ _ _ H).
    + destruct (find _ _).
      * by rewrite (run_exits _ _ _ _ H).
      * rewrite (run_exits _ _ _ _ H) in Hprinted. done.
Qed.

Lemma block_is_not_converted_witness :
  main Json.load
       (Json.document "{'tool_input':{'file_path':'/etc/ssl/site.key'}}") [] =
  exits 2 (line (lit "BLOCKED: Cannot edit file matching pattern: .key")) ∧
  exit_code
    (hook (Json.document "{'tool_input':{'file_path':'/etc/ssl/site.key'}}"))
  = 2.
Proof.
  apply (block_is_not_converted Json.load
           (Json.document "{'tool_input':{'file_path':'/etc/ssl/site.key'}}")).
  vm_compute. discriminate.
Defined.

(** ** The decision as a whole *)

Section Decision.

Variable json_load : list Byte.byte → loaded pyobj.

(** The run on a path that is a string, read off the two checks. *)
Lemma run_str stdin input_data file_path :
  json_load stdin = Loaded input_data →
  returns (get_file_path input_data) (PStr file_path) →
  run json_load stdin =
  if bool_decide (final_segment file_path ∈ PROTECTED_FILES)
  then Outcome 2 (line (protected_file_message (final_segment file_path)))
  else match find (λ pattern, Str.contains pattern file_path)
                  PROTECTED_PATTERNS with
       | Some pattern => Outcome 2 (line (pattern_message pattern))
       | None => Outcome 0 []
       end.
Proof.
  intros Hload Hpath.
  pose proof (main_str json_load _ _ _ [] Hload Hpath) as Hmain.
  rewrite check_str in Hmain.
  destruct (bool_decide _); [by apply run_exits|].
  destruct (find _ _); by apply run_exits.
Qed.

Lemma blocked_str stdin input_data file_path :
  json_load stdin = Loaded input_data →
  returns (get_file_path input_data) (PStr file_path) →
  exit_code (run json_load stdin) = 2 ↔
  final_segment file_path ∈ PROTECTED_FILES ∨
  ∃ pattern, pattern ∈ PROTECTED_PATTERNS ∧ substring pattern file_path.
Proof.
  intros Hload Hpath. rewrite (run_str _ _ _ Hload Hpath).
  case_bool_decide as Hname; [simpl; tauto|].
  destruct (find _ _) as [p|] eqn:E; simpl.
  - apply find_some in E as [Hin Hsub].
    apply list_elem_of_In in Hin. apply contains_spec in Hsub.
    split; [eauto | done].
  - split; [done|]. intros [H | (p & Hin & Hsub)]; [done|].
    apply list_elem_of_In in Hin. apply (find_none _ _ E) in Hin.
    apply contains_spec in Hsub. simpl in Hin. congruence.
Qed.

Lemma not_loaded_str stdin input_data :
  json_load stdin = Loaded input_data →
  (∀ s, ¬ returns (get_file_path input_data) (PStr s)) →
  run json_load stdin = Outcome 0 [].
Proof.
  intros Hload Hns. apply run_exits. by apply (main_not_str _ _ input_data).
Qed.

End Decision.

Lemma returns_unique {A} (m : M A) (a b : A) :
  returns m a → returns m b → a = b.
Proof. intros Ha Hb. specialize (Ha []). specialize (Hb []). congruence. Qed.

Lemma substring_elem (p s : str) (c : N) :
  substring p s → c ∈ p → c ∈ s.
Proof.
  intros (before & after & ->) Hc. rewrite !elem_of_app. auto.
Qed.

Lemma final_segment_elem (path : str) (c : N) :
  c ∈ final_segment path → c ∈ path.
Proof.
  intros Hc. destruct (final_segment_spec path) as [_ [H | [dir H]]];
    rewrite H; [done|].
  rewrite elem_of_app, elem_of_cons. auto.
Qed.

Lemma protected_name_no_slash (name : str) :
  name ∈ PROTECTED_FILES → slash ∉ name.
Proof.
  rewrite PROTECTED_FILES_spec. intros [-> | [-> | [-> | ->]]];
    compute_done.
Qed.

(** X1.  The hook blocks exactly when the parsed [file_path] is a string
    whose final segment is a protected name or which contains a
    protected pattern. *)
Theorem blocked_iff
    (json_load : list Byte.byte → loaded pyobj) (stdin : list Byte.byte) :
  exit_code (run json_load stdin) = 2 ↔
  ∃ input_data file_path,
    json_load stdin = Loaded input_data ∧
    returns (get_file_path input_data) (PStr file_path) ∧
    (final_segment file_path ∈ [lit ".env"; lit ".env.local";
                                lit ".env.production";
                                lit "credentials.json"] ∨
     ∃ pattern, pattern ∈ [lit "id_rsa"; lit ".pem"; lit ".key"] ∧
                substring pattern file_path).
Proof.
  split.
  - intros Hcode.
    destruct (main_cases json_load stdin []) as [H | (v & s & Hl & Hp & _)].
    + rewrite (run_exits _ _ _ _ H) in Hcode. done.
    + exists v, s. split; [done|]. split; [done|].
      rewrite protected_names. by apply (blocked_str json_load stdin v).
  - intros (v & s & Hl & Hp & H). apply (blocked_str _ _ _ _ Hl Hp).
    by rewrite <- protected_names.
Qed.

(** X2.  Whatever the input, the hook prints nothing and exits with
    status 0, or prints exactly one of seven fixed lines and exits with
    status 2: the protected-file message for one of the four names or the
    pattern message for one of the three patterns. *)
Theorem output_is_a_fixed_line
    (json_load : list Byte.byte → loaded pyobj) (stdin : list Byte.byte) :
  run json_load stdin = Outcome 0 [] ∨
  (∃ name,
     name ∈ [lit ".env"; lit ".env.local"; lit ".env.production";
             lit "credentials.json"] ∧
     run json_load stdin =
     Outcome 2 (line (lit "BLOCKED: Cannot edit protected file: " ++ name))) ∨
  (∃ pattern,
     pattern ∈ [lit "id_rsa"; lit ".pem"; lit ".key"] ∧
     run json_load stdin =
     Outcome 2
       (line (lit "BLOCKED: Cannot edit file matching pattern: " ++ pattern))).
Proof.
  destruct (main_cases json_load stdin []) as [H | (v & s & Hl & Hp & _)].
  - left. by apply run_exits.
  - rewrite (run_str _ _ _ _ Hl Hp).
    case_bool_decide as Hname.
    + right. left. exists (final_segment s).
      by rewrite protected_names.
    + destruct (find _ _) as [p|] eqn:E; [|by left].
      right. right. exists p. apply find_some in E as [Hin _].
      by apply list_elem_of_In in Hin.
Qed.

(** X3.  A [file_path] that is not a string (a number, a list, an object,
    a boolean, [null]) is allowed, whatever it holds: status 0, nothing
    printed. *)
Theorem non_string_path_is_allowed
    (json_load : list Byte.byte → loaded pyobj) (stdin : list Byte.byte)
    (input_data file_path : pyobj) :
  json_load stdin = Loaded input_data →
  returns (get_file_path input_data) file_path →
  (∀ s, file_path ≠ PStr s) →
  run json_load stdin = Outcome 0 [].
Proof.
  intros Hload Hpath Hns. apply (not_loaded_str _ _ _ Hload).
  intros s Hs. apply (Hns s). exact (returns_unique _ _ _ Hpath Hs).
Qed.

Lemma non_string_path_is_allowed_witness :
  hook (Json.document "{'tool_input':{'file_path':['/home/user/.env']}}") =
  Outcome 0 [].
Proof.
  eapply (non_string_path_is_allowed Json.load _ _
            (PList [PStr (lit "/home/user/.env")])).
  - vm_compute. reflexivity.
  - intros out. vm_compute. reflexivity.
  - intros s. discriminate.
Defined.

(** X4.  A document that is not an object (a string, a list, a number,
    ...) is allowed: [get] is missing, and the error is caught. *)
Theorem non_object_document_is_allowed
    (json_load : list Byte.byte → loaded pyobj) (stdin : list Byte.byte)
    (input_data : pyobj) :
  json_load stdin = Loaded input_data →
  (∀ d, input_data ≠ PDict d) →
  run json_load stdin = Outcome 0 [].
Proof.
  intros Hload Hnd. apply (not_loaded_str _ _ _ Hload).
  intros s Hs. specialize (Hs []).
  destruct input_data; try discriminate Hs. by eapply Hnd.
Qed.

Lemma non_object_document_is_allowed_witness :
  hook (Json.document "'/home/user/.env'") = Outcome 0 [].
Proof.
  eapply (non_object_document_is_allowed Json.load _
            (PStr (lit "/home/user/.env"))).
  - vm_compute. reflexivity.
  - intros d. discriminate.
Defined.

(** X5.  When the key [tool_input] is present with a value that is not an
    object ([null], a string, ...), the default is not used and the hook
    allows: status 0, nothing printed. *)
Theorem non_object_tool_input_is_allowed
    (json_load : list Byte.byte → loaded pyobj) (stdin : list Byte.byte)
    (d : gmap str pyobj) (tool_input : pyobj) :
  json_load stdin = Loaded (PDict d) →
  d !! lit "tool_input" = Some tool_input →
  (∀ t, tool_input ≠ PDict t) →
  run json_load stdin = Outcome 0 [].
Proof.
  intros Hload Hd Hnd. apply (not_loaded_str _ _ _ Hload).
  intros s Hs. specialize (Hs []). unfold get_file_path in Hs.
  simpl in Hs. unfold mbind, M_bind, mret, M_ret in Hs. rewrite Hd in Hs.
  simpl in Hs. destruct tool_input; try discriminate Hs. by eapply Hnd.
Qed.

Lemma non_object_tool_input_is_allowed_witness :
  hook (Json.document "{'tool_input': null, 'file_path': '/home/user/.env'}")
  = Outcome 0 [].
Proof.
  eapply (non_object_tool_input_is_allowed Json.load _ _ PNone).
  - vm_compute. reflexivity.
  - vm_compute. reflexivity.
  - intros t. discriminate.
Defined.

(** X6.  The file name computed from a string path holds no ['/'] and is
    the whole path or what follows its last ['/']. *)
Theorem filename_follows_the_last_slash (file_path : str) :
  ∃ filename,
    returns (get_filename (PStr file_path)) filename ∧
    (slash ∉ filename) ∧
    (file_path = filename ∨ ∃ dir, file_path = dir ++ slash :: filename).
Proof.
  exists (final_segment file_path). split; [apply get_filename_str|].
  apply final_segment_spec.
Qed.

(** X7.  A protected name is blocked in any directory: a path made of any
    text, a ['/'] and one of the four names gives status 2 and the
    protected-file line of that name. *)
Theorem protected_name_in_any_directory
    (json_load : list Byte.byte → loaded pyobj) (stdin : list Byte.byte)
    (input_data : pyobj) (dir name : str) :
  json_load stdin = Loaded input_data →
  returns (get_file_path input_data) (PStr (dir ++ slash :: name)) →
  name ∈ [lit ".env"; lit ".env.local"; lit ".env.production";
          lit "credentials.json"] →
  run json_load stdin =
  Outcome 2 (line (lit "BLOCKED: Cannot edit protected file: " ++ name)).
Proof.
  intros Hload Hpath Hname. apply protected_names in Hname.
  rewrite (run_str _ _ _ _ Hload Hpath), final_segment_after_slash.
  rewrite (final_segment_no_slash _ (protected_name_no_slash _ Hname)).
  by rewrite (bool_decide_eq_true_2 _ Hname).
Qed.

Lemma protected_name_in_any_directory_witness :
  hook (Json.document "{'tool_input':{'file_path':'srv/app/credentials.json'}}")
  = Outcome 2
      (line (lit "BLOCKED: Cannot edit protected file: credentials.json")).
Proof.
  eapply (protected_name_in_any_directory Json.load _ _ (lit "srv/app")
            (lit "credentials.json")).
  - vm_compute. reflexivity.
  - intros out. vm_compute. reflexivity.
  - do 3 apply list_elem_of_further. apply list_elem_of_here.
Defined.

(** X8.  Putting directories in front of a blocked path never unblocks
    it. *)
Theorem longer_path_stays_blocked
    (json_load : list Byte.byte → loaded pyobj) (stdin stdin' : list Byte.byte)
    (input_data input_data' : pyobj) (file_path dir : str) :
  json_load stdin = Loaded input_data →
  returns (get_file_path input_data) (PStr file_path) →
  json_load stdin' = Loaded input_data' →
  returns (get_file_path input_data') (PStr (dir ++ slash :: file_path)) →
  exit_code (run json_load stdin) = 2 →
  exit_code (run json_load stdin') = 2.
Proof.
  intros Hload Hpath Hload' Hpath' Hcode.
  apply (blocked_str _ _ _ _ Hload Hpath) in Hcode.
  apply (blocked_str _ _ _ _ Hload' Hpath').
  rewrite final_segment_after_slash.
  destruct Hcode as [H | (p & Hin & before & after & ->)]; [by left|].
  right. exists p. split; [done|].
  exists (dir ++ slash :: before), after. by rewrite <- app_assoc.
Qed.

Lemma longer_path_stays_blocked_witness :
  exit_code
    (hook (Json.document "{'tool_input':{'file_path':'/home/me/keys/id_rsa'}}"))
  = 2.
Proof.
  eapply (longer_path_stays_blocked Json.load
            (Json.document "{'tool_input':{'file_path':'keys/id_rsa'}}") _ _ _
            (lit "keys/id_rsa") (lit "/home/me")).
  - vm_compute. reflexivity.
  - intros out. vm_compute. reflexivity.
  - vm_compute. reflexivity.
  - intros out. vm_compute. reflexivity.
  - vm_compute. reflexivity.
Defined.

(** X9.  The comparisons are case-sensitive and every name and pattern
    holds a lower-case letter: a path without lower-case ASCII letters is
    never blocked. *)
Theorem path_without_lowercase_is_allowed
    (json_load : list Byte.byte → loaded pyobj) (stdin : list Byte.byte)
    (input_data : pyobj) (file_path : str) :
  json_load stdin = Loaded input_data →
  returns (get_file_path input_data) (PStr file_path) →
  (∀ c, c ∈ file_path → lowercase c = false) →
  run json_load stdin = Outcome 0 [].
Proof.
  intros Hload Hpath Hupper.
  assert (∀ w : str, 101%N ∈ w ∨ 105%N ∈ w →
            (∀ c, c ∈ w → c ∈ file_path) → False) as Hno.
  { intros w [H|H] Hsub; apply Hsub, Hupper in H; discriminate. }
  rewrite (run_str _ _ _ _ Hload Hpath).
  case_bool_decide as Hname.
  - exfalso. apply (Hno (final_segment file_path)).
    + left. apply PROTECTED_FILES_spec in Hname.
      destruct Hname as [-> | [-> | [-> | ->]]];
        compute_done.
    + apply final_segment_elem.
  - destruct (find _ _) as [p|] eqn:E; [|done]. exfalso.
    apply find_some in E as [Hin Hsub]. apply contains_spec in Hsub.
    assert (101%N ∈ p ∨ 105%N ∈ p) as Hp.
    { apply list_elem_of_In in Hin. unfold PROTECTED_PATTERNS in Hin.
      rewrite !elem_of_cons, elem_of_nil in Hin.
      destruct Hin as [->|[->|[->|[]]]];
        [right | left | left]; compute_done. }
    apply (Hno p Hp). intros c. by apply substring_elem.
Qed.

Lemma path_without_lowercase_is_allowed_witness :
  hook (Json.document "{'tool_input':{'file_path':'/HOME/USER/.ENV'}}") =
  Outcome 0 [].
Proof.
  eapply (path_without_lowercase_is_allowed Json.load _ _
            (lit "/HOME/USER/.ENV")).
  - vm_compute. reflexivity.
  - intros out. vm_compute. reflexivity.
  - intros c Hc. apply list_elem_of_In in Hc. simpl in Hc.
    repeat (destruct Hc as [<-|Hc]; [reflexivity|]). destruct Hc.
Defined.

(** X10.  A protected pattern anywhere in a string path blocks, whatever
    the final segment is: status 2. *)
Theorem pattern_anywhere_is_blocked
    (json_load : list Byte.byte → loaded pyobj) (stdin : list Byte.byte)
    (input_data : pyobj) (before pattern after : str) :
  json_load stdin = Loaded input_data →
  returns (get_file_path input_data) (PStr (before ++ pattern ++ after)) →
  pattern ∈ [lit "id_rsa"; lit ".pem"; lit ".key"] →
  exit_code (run json_load stdin) = 2.
Proof.
  intros Hload Hpath Hin. apply (blocked_str _ _ _ _ Hload Hpath).
  right. exists pattern. split; [done|]. by exists before, after.
Qed.

Lemma pattern_anywhere_is_blocked_witness :
  exit_code
    (hook (Json.document "{'tool_input':{'file_path':'/a.pem.d/.env'}}")) = 2.
Proof.
  eapply (pattern_anywhere_is_blocked Json.load _ _ (lit "/a") (lit ".pem")
            (lit ".d/.env")).
  - vm_compute. reflexivity.
  - intros out. vm_compute. reflexivity.
  - apply list_elem_of_further, list_elem_of_here.
Defined.
